(** * apple-sales-bot: the sales report pipeline of [index.js]

    A shallow embedding of the parser ([parseSalesReport]), the aggregator
    ([getDailySales], [getExchangeRates], [getSalesForDate]) and the Slack
    formatter ([buildSlackMessage], [createFields], [formatNumber],
    [formatPercent], [formatPercentsField], [formatCurrency]), followed by
    the properties of the report pipeline.

    Modelling conventions.
    - A JavaScript number is a [JS.num]: [NaN], the two infinities, or a
      finite value held as an exact rational.  Rounding to binary64,
      overflow and the sign of zero are not represented.
    - A JavaScript string is a [string] of code units; character classes
      and white space are those of the ASCII range.
    - [rates] (an object used as a dictionary) is a [gmap string JS.num];
      the [apps] object, whose key order is observable through
      [Object.keys], is an association list in insertion order.  Only own
      properties are represented.
    - A promise that rejects or a statement that throws is an [Error]
      outcome of the [outcome] monad. *)

From Stdlib Require Import ZArith QArith Qabs Qround Qcanon String Ascii DecimalString Lia.
From stdpp Require Import gmap strings list.

Local Open Scope string_scope.
Local Open Scope list_scope.

(** ** Outcomes: a value, or the error that was thrown *)

Inductive error :=
  | TypeError                      (* a property read on null/undefined *)
  | ReportServiceError             (* getReport failed with another code *)
  | RatesRequestError              (* the rate request itself failed *)
  | RatesUnrecognized.             (* no body, or no body.rates *)

Inductive outcome (A : Type) :=
  | Ok (a : A)
  | Error (e : error).
Arguments Ok {A} a.
Arguments Error {A} e.

Definition obind {A B} (m : outcome A) (k : A -> outcome B) : outcome B :=
  match m with
  | Ok a => k a
  | Error e => Error e
  end.

Notation "'do' x <- m ; k" := (obind m (fun x => k))
  (at level 10, x name, m at level 100, k at level 200).

(** ** JavaScript values, numbers and the builtins the program calls *)

Module JS.

(** What a report cell, or a read past the end of a row, evaluates to. *)
Inductive value :=
  | Undefined
  | Null
  | Str (s : string).

Definition value_eqb (a b : value) : bool :=
  match a, b with
  | Undefined, Undefined => true
  | Null, Null => true
  | Str s, Str t => String.eqb s t
  | _, _ => false
  end.

(** [String(v)], as used when a value is a property key or an argument
    of [localeCompare]. *)
Definition to_key (v : value) : string :=
  match v with
  | Undefined => "undefined"
  | Null => "null"
  | Str s => s
  end.

Inductive num :=
  | NaN
  | Inf (negative : bool)
  | Fin (q : Q).

Definition fin (q : Q) : num := Fin (Qred q).
Definition int (z : Z) : num := Fin (inject_Z z).

Definition Qzerob (q : Q) : bool := (Qnum q =? 0)%Z.
Definition Qnegb (q : Q) : bool := (Qnum q <? 0)%Z.
Definition Qltb (p q : Q) : bool :=
  match Qcompare p q with Lt => true | _ => false end.

Definition add (a b : num) : num :=
  match a, b with
  | NaN, _ | _, NaN => NaN
  | Inf s, Inf t => if Bool.eqb s t then Inf s else NaN
  | Inf s, Fin _ | Fin _, Inf s => Inf s
  | Fin p, Fin q => fin (p + q)
  end.

Definition sub (a b : num) : num :=
  match a, b with
  | NaN, _ | _, NaN => NaN
  | Inf s, Inf t => if Bool.eqb s t then NaN else Inf s
  | Inf s, Fin _ => Inf s
  | Fin _, Inf t => Inf (negb t)
  | Fin p, Fin q => fin (p - q)
  end.

Definition mul (a b : num) : num :=
  match a, b with
  | NaN, _ | _, NaN => NaN
  | Inf s, Inf t => Inf (xorb s t)
  | Inf s, Fin q | Fin q, Inf s =>
      if Qzerob q then NaN else Inf (xorb s (Qnegb q))
  | Fin p, Fin q => fin (p * q)
  end.

Definition div (a b : num) : num :=
  match a, b with
  | NaN, _ | _, NaN => NaN
  | Inf _, Inf _ => NaN
  | Inf s, Fin q => Inf (xorb s (Qnegb q))
  | Fin _, Inf _ => Fin 0
  | Fin p, Fin q =>
      if Qzerob q then (if Qzerob p then NaN else Inf (Qnegb p))
      else fin (p / q)
  end.

(** [Math.abs] *)
Definition abs (a : num) : num :=
  match a with
  | NaN => NaN
  | Inf _ => Inf false
  | Fin q => Fin (Qabs q)
  end.

(** [a < b], [a > b], [a >= b]: every comparison with [NaN] is false. *)
Definition lt (a b : num) : bool :=
  match a, b with
  | NaN, _ | _, NaN => false
  | Inf s, Inf t => s && negb t
  | Inf s, Fin _ => s
  | Fin _, Inf t => negb t
  | Fin p, Fin q => Qltb p q
  end.

Definition gt (a b : num) : bool := lt b a.

Definition ge (a b : num) : bool :=
  match a, b with
  | NaN, _ | _, NaN => false
  | Inf s, Inf t => negb s || t
  | Inf s, Fin _ => negb s
  | Fin _, Inf t => t
  | Fin p, Fin q => Qle_bool q p
  end.

(** Truthiness of a number: [NaN] and zero are falsy. *)
Definition truthy (a : num) : bool :=
  match a with
  | NaN => false
  | Inf _ => true
  | Fin q => negb (Qzerob q)
  end.

(** [a || b] on numbers *)
Definition or_else (a b : num) : num := if truthy a then a else b.

(** *** [Number(v)] *)

Definition code (c : ascii) : N := N_of_ascii c.

Definition is_digit (c : ascii) : bool := ((48 <=? code c) && (code c <=? 57))%N.

Definition is_space (c : ascii) : bool :=
  ((code c =? 32) || ((9 <=? code c) && (code c <=? 13)))%N.

Fixpoint trim_start (cs : list ascii) : list ascii :=
  match cs with
  | c :: cs' => if is_space c then trim_start cs' else cs
  | [] => []
  end.

(** [String.prototype.trim] *)
Definition trim_chars (cs : list ascii) : list ascii :=
  rev (trim_start (rev (trim_start cs))).

Definition digit_val (base : N) (c : ascii) : option N :=
  let n := code c in
  let v := if ((48 <=? n) && (n <=? 57))%N then Some (n - 48)%N
           else if ((97 <=? n) && (n <=? 122))%N then Some (n - 87)%N
           else if ((65 <=? n) && (n <=? 90))%N then Some (n - 55)%N
           else None in
  match v with
  | Some d => if (d <? base)%N then Some d else None
  | None => None
  end.

Fixpoint digits_val (base acc : N) (cs : list ascii) : option N :=
  match cs with
  | [] => Some acc
  | c :: cs' =>
      match digit_val base c with
      | Some d => digits_val base (acc * base + d)%N cs'
      | None => None
      end
  end.

Fixpoint span_digits (cs : list ascii) : list ascii * list ascii :=
  match cs with
  | c :: cs' =>
      if is_digit c then let (ds, r) := span_digits cs' in (c :: ds, r)
      else ([], cs)
  | [] => ([], [])
  end.

Definition chars (s : string) : list ascii := list_ascii_of_string s.

Definition chars_eqb (a b : list ascii) : bool :=
  String.eqb (string_of_list_ascii a) (string_of_list_ascii b).

(** [0x..], [0o..], [0b..]: at least one digit of the radix, nothing else. *)
Definition radix_literal (base : N) (cs : list ascii) : num :=
  match cs with
  | [] => NaN
  | _ => match digits_val base 0 cs with
         | Some n => int (Z.of_N n)
         | None => NaN
         end
  end.

(** The exponent part of a decimal literal: absent, or [e]/[E], an
    optional sign and at least one digit. *)
Definition exponent_part (cs : list ascii) : option Z :=
  match cs with
  | [] => Some 0%Z
  | c :: r =>
      if Ascii.eqb c "e" || Ascii.eqb c "E" then
        let '(neg, ds) :=
          match r with
          | s :: r' => if Ascii.eqb s "-" then (true, r')
                       else if Ascii.eqb s "+" then (false, r')
                       else (false, r)
          | [] => (false, r)
          end in
        match ds with
        | [] => None
        | _ => match digits_val 10 0 ds with
               | Some n => Some (if neg then - Z.of_N n else Z.of_N n)%Z
               | None => None
               end
        end
      else None
  end.

(** [StrUnsignedDecimalLiteral]: [Infinity], or digits with an optional
    fraction and exponent. *)
Definition unsigned_decimal (cs : list ascii) : num :=
  if chars_eqb cs (chars "Infinity") then Inf false
  else
    let (ip, r1) := span_digits cs in
    let (fp, r2) :=
      match r1 with
      | c :: r => if Ascii.eqb c "." then span_digits r else ([], r1)
      | [] => ([], r1)
      end in
    match ip ++ fp with
    | [] => NaN
    | ds =>
        match digits_val 10 0 ds, exponent_part r2 with
        | Some m, Some e =>
            fin (inject_Z (Z.of_N m) * Qpower 10 (e - Z.of_nat (length fp)))
        | _, _ => NaN
        end
    end.

Definition neg (a : num) : num :=
  match a with
  | NaN => NaN
  | Inf s => Inf (negb s)
  | Fin q => fin (- q)
  end.

(** [Number(s)] for a string [s] *)
Definition string_to_number (s : string) : num :=
  match trim_chars (chars s) with
  | [] => Fin 0
  | c :: r =>
      let prefixed :=
        match r with
        | x :: r' =>
            if Ascii.eqb c "0" then
              if Ascii.eqb x "x" || Ascii.eqb x "X" then Some (radix_literal 16 r')
              else if Ascii.eqb x "o" || Ascii.eqb x "O" then Some (radix_literal 8 r')
              else if Ascii.eqb x "b" || Ascii.eqb x "B" then Some (radix_literal 2 r')
              else None
            else None
        | [] => None
        end in
      match prefixed with
      | Some n => n
      | None =>
          if Ascii.eqb c "-" then neg (unsigned_decimal r)
          else if Ascii.eqb c "+" then unsigned_decimal r
          else unsigned_decimal (c :: r)
      end
  end.

(** [Number(v)] *)
Definition Number (v : value) : num :=
  match v with
  | Undefined => NaN
  | Null => Fin 0
  | Str s => string_to_number s
  end.

(** *** Printing numbers *)

Definition digits (n : N) : list ascii :=
  chars (NilEmpty.string_of_uint (N.to_uint n)).

Definition pow10 (e : nat) : Q := inject_Z (10 ^ Z.of_nat e).

(** The least [e] (searched upwards from [e], at most [fuel] steps) such
    that [q * 10^e] is an integer.  A rational whose decimal expansion
    does not end is cut where the search gives up. *)
Fixpoint decimal_scale (fuel e : nat) (q : Q) : nat :=
  match fuel with
  | O => e
  | S fuel' =>
      if Qeq_bool (inject_Z (Qfloor (q * pow10 e))) (q * pow10 e) then e
      else decimal_scale fuel' (S e) q
  end.

(** Drops the trailing zeros of [n], lowering the scale with each. *)
Fixpoint strip_zeros (fuel : nat) (n : N) (e : Z) : N * Z :=
  match fuel with
  | O => (n, e)
  | S fuel' =>
      if (negb (n =? 0) && (n mod 10 =? 0))%N
      then strip_zeros fuel' (n / 10)%N (e - 1)%Z
      else (n, e)
  end.

(** [Number::toString] (radix 10) of a finite non-negative value whose
    shortest digits are [ds] and whose decimal point sits after the
    [n]-th digit. *)
Definition layout_digits (ds : list ascii) (n : Z) : list ascii :=
  let k := Z.of_nat (length ds) in
  if ((k <=? n) && (n <=? 21))%Z then
    ds ++ repeat "0"%char (Z.to_nat (n - k))
  else if ((0 <? n) && (n <=? 21))%Z then
    take (Z.to_nat n) ds ++ "."%char :: drop (Z.to_nat n) ds
  else if ((-6 <? n) && (n <=? 0))%Z then
    "0"%char :: "."%char :: repeat "0"%char (Z.to_nat (- n)) ++ ds
  else
    let e := (n - 1)%Z in
    let ex := (if (e <? 0)%Z then "-"%char else "+"%char) :: digits (Z.to_N (Z.abs e)) in
    match ds with
    | [d] => d :: "e"%char :: ex
    | d :: rest => d :: "."%char :: rest ++ "e"%char :: ex
    | [] => []
    end.

(** [x.toString()] *)
Definition toString (x : num) : string :=
  match x with
  | NaN => "NaN"
  | Inf s => if s then "-Infinity" else "Infinity"
  | Fin q =>
      if Qzerob q then "0"
      else
        let a := Qabs q in
        let e := decimal_scale (Pos.size_nat (Qden q)) 0 a in
        let i := Z.to_N (Qfloor (a * pow10 e)) in
        let '(s, e') := strip_zeros (length (digits i)) i (Z.of_nat e) in
        let ds := digits s in
        string_of_list_ascii
          ((if Qnegb q then ["-"%char] else []) ++
           layout_digits ds (Z.of_nat (length ds) - e'))
  end.

(** [x.toFixed(d)]: the integer [n] nearest to [x * 10^d] (the larger
    one on a tie), printed with [d] digits after the point.  From
    [10^21] on JavaScript falls back to [toString]. *)
Definition toFixed (x : num) (d : nat) : string :=
  match x with
  | NaN => "NaN"
  | Inf s => if s then "-Infinity" else "Infinity"
  | Fin q =>
      if Qle_bool (pow10 21) (Qabs q) then toString x
      else
        let n := Z.to_N (Qfloor (Qabs q * pow10 d + (1 # 2))) in
        let m := digits n in
        let m :=
          match d with
          | O => m
          | _ =>
              let m := repeat "0"%char (S d - length m) ++ m in
              take (length m - d) m ++ "."%char :: drop (length m - d) m
          end in
        string_of_list_ascii ((if Qnegb q then ["-"%char] else []) ++ m)
  end.

(** *** [s.replace(/\B(?=(\d{3})+(?!\d))/g, ',')] *)

Definition is_word (c : ascii) : bool :=
  (is_digit c
   || ((97 <=? code c) && (code c <=? 122))
   || ((65 <=? code c) && (code c <=? 90))
   || (code c =? 95))%N.

Fixpoint digit_run (cs : list ascii) : nat :=
  match cs with
  | c :: cs' => if is_digit c then S (digit_run cs') else O
  | [] => O
  end.

(** The lookahead: one or more groups of three digits, then no digit.
    It holds exactly when the digits that follow number a positive
    multiple of three. *)
Definition triples_ahead (cs : list ascii) : bool :=
  let k := digit_run cs in
  (0 <? k)%nat && (k mod 3 =? 0)%nat.

(** [\B]: the characters on the two sides are both word characters or
    both not; outside the string counts as not. *)
Definition non_boundary (prev : option ascii) (cs : list ascii) : bool :=
  Bool.eqb (match prev with Some c => is_word c | None => false end)
           (match cs with c :: _ => is_word c | [] => false end).

Fixpoint insert_commas (prev : option ascii) (cs : list ascii) : list ascii :=
  match cs with
  | [] => []
  | c :: cs' =>
      (if non_boundary prev cs && triples_ahead cs then [","%char] else [])
      ++ c :: insert_commas (Some c) cs'
  end.

Definition replace_thousands (s : string) : string :=
  string_of_list_ascii (insert_commas None (chars s)).

End JS.

(** ** The report parser *)

Module Parser.
Import JS.

Definition INSTALL_TYPES : list string := ["1"; "1F"; "1T"; "F1"; "1E"; "1EP"; "1EU"].
Definition IAP_TYPES : list string := ["IA1"; "IA9"; "IAY"; "IAC"; "FI1"].

(** [set.has(v)] for a set of strings *)
Definition has (set : list string) (v : value) : bool :=
  match v with
  | Str s => existsb (String.eqb s) set
  | _ => false
  end.

(** A row is the array of its cells; a report is the array of its rows,
    the header first. *)
Definition row := list value.
Definition report := list row.

Record AppSalesRecord := {
  title : value;
  country : value;
  icon : value;
  installs : num;
  revenue : num
}.

(** The [apps] object: own properties in insertion order. *)
Definition apps_map := list (string * AppSalesRecord).

Fixpoint get (k : string) (m : apps_map) : option AppSalesRecord :=
  match m with
  | [] => None
  | (k', a) :: m' => if String.eqb k k' then Some a else get k m'
  end.

(** [m[k] = a]: overwrites in place, or adds the key last. *)
Fixpoint set (k : string) (a : AppSalesRecord) (m : apps_map) : apps_map :=
  match m with
  | [] => [(k, a)]
  | (k', a') :: m' =>
      if String.eqb k k' then (k, a) :: m' else (k', a') :: set k a m'
  end.

(** [header.indexOf(name)]: the first position holding exactly [name],
    or -1. *)
Fixpoint indexOf_from (i : Z) (header : row) (name : string) : Z :=
  match header with
  | [] => (-1)%Z
  | c :: header' =>
      if value_eqb c (Str name) then i else indexOf_from (i + 1)%Z header' name
  end.

Definition indexOf (header : row) (name : string) : Z := indexOf_from 0 header name.

(** [row[i]]: [undefined] at -1 and past the end. *)
Definition cell (r : row) (i : Z) : value :=
  if (i <? 0)%Z then Undefined else nth (Z.to_nat i) r Undefined.

Record columns := {
  idxAppID : Z;
  idxCountry : Z;
  idxCurrency : Z;
  idxTitle : Z;
  idxUnits : Z;
  idxRevenue : Z;
  idxType : Z
}.

Definition resolve_columns (header : row) : columns :=
  {| idxAppID := indexOf header "Apple Identifier";
     idxCountry := indexOf header "Country Code";
     idxCurrency := indexOf header "Currency of Proceeds";
     idxTitle := indexOf header "Title";
     idxUnits := indexOf header "Units";
     idxRevenue := indexOf header "Developer Proceeds";
     idxType := indexOf header "Product Type Identifier" |}.

(** [units * localRevenue * (1 / fxRate)] *)
Definition usd (units localRevenue fxRate : num) : num :=
  mul (mul units localRevenue) (div (int 1) fxRate).

(** The body of the [forEach] over the data rows. *)
Definition parse_row (cols : columns) (rates : gmap string num)
    (apps : apps_map) (r : row) : apps_map :=
  let appID := to_key (cell r (idxAppID cols)) in
  let app :=
    match get appID apps with
    | Some app => app
    | None => {| title := cell r (idxTitle cols);
                 country := cell r (idxCountry cols);
                 icon := Null;
                 installs := int 0;
                 revenue := int 0 |}
    end in
  let type := cell r (idxType cols) in
  let units := or_else (Number (cell r (idxUnits cols))) (int 0) in
  let localRevenue := or_else (Number (cell r (idxRevenue cols))) (int 0) in
  let currency := cell r (idxCurrency cols) in
  let app' :=
    match rates !! to_key currency with
    | Some fxRate =>
        if has INSTALL_TYPES type then
          {| title := title app; country := country app; icon := icon app;
             installs := add (installs app) units;
             revenue := add (revenue app) (usd units localRevenue fxRate) |}
        else if has IAP_TYPES type then
          {| title := title app; country := country app; icon := icon app;
             installs := installs app;
             revenue := add (revenue app) (usd units localRevenue fxRate) |}
        else app
    | None => app
    end in
  set appID app' apps.

(** [parseSalesReport(report, rates)]; [report] is [None] when the
    caller passes [null]. *)
Definition parseSalesReport (report : option report) (rates : gmap string num)
    : outcome apps_map :=
  match report with
  | None => Error TypeError
  | Some rows =>
      if (length rows <? 2)%nat then Ok []
      else
        match rows with
        | header :: data => Ok (fold_left (parse_row (resolve_columns header) rates) data [])
        | [] => Ok []
        end
  end.

(** [Object.keys(m)]: the keys that are array indices (canonical decimal
    numerals below 2^32 - 1) in ascending order, then the others in
    insertion order. *)
Definition array_index (k : string) : option N :=
  match chars k with
  | [] => None
  | cs =>
      match digits_val 10 0 cs with
      | Some n => if chars_eqb (digits n) cs && (n <? 4294967295)%N then Some n else None
      | None => None
      end
  end.

Fixpoint insert_index (n : N) (k : string) (l : list (N * string)) : list (N * string) :=
  match l with
  | [] => [(n, k)]
  | (n', k') :: l' =>
      if (n <=? n')%N then (n, k) :: l else (n', k') :: insert_index n k l'
  end.

Fixpoint index_keys (m : apps_map) : list (N * string) :=
  match m with
  | [] => []
  | (k, _) :: m' =>
      match array_index k with
      | Some n => insert_index n k (index_keys m')
      | None => index_keys m'
      end
  end.

Fixpoint named_keys (m : apps_map) : list string :=
  match m with
  | [] => []
  | (k, _) :: m' =>
      match array_index k with
      | Some _ => named_keys m'
      | None => k :: named_keys m'
      end
  end.

Definition keys (m : apps_map) : list string :=
  map snd (index_keys m) ++ named_keys m.

End Parser.

(** ** The sales aggregator *)

Module Aggregator.
Import JS Parser.

(** What [reporter.Sales.getReport] settles to: the report text, or an
    error whose [Number(err.code)] is [code]. *)
Inductive report_response :=
  | ReportText (text : string)
  | ReportFailed (code : num).

(** What the rate request calls back with: an error, or a body whose
    [rates] member is [None] when the body or the member is missing. *)
Inductive rates_response :=
  | RatesFailed
  | RatesBody (rates : option (gmap string num)).

Definition NO_REPORT_ERRORS : list Z := [210; 211; 212]%Z.
Definition ERR_NO_SALES : Z := 213.

Definition num_is (code : num) (z : Z) : bool :=
  match code with
  | Fin q => Qeq_bool q (inject_Z z)
  | _ => false
  end.

(** [s.split(sep)] for a one-character separator *)
Fixpoint split_on (sep : ascii) (cs : list ascii) : list (list ascii) :=
  match cs with
  | [] => [[]]
  | c :: cs' =>
      if Ascii.eqb c sep then [] :: split_on sep cs'
      else match split_on sep cs' with
           | w :: ws => (c :: w) :: ws
           | [] => [[c]]
           end
  end.

Definition newline : ascii := ascii_of_nat 10.
Definition tab : ascii := ascii_of_nat 9.

(** [cell.trim() || null] *)
Definition to_cell (cs : list ascii) : value :=
  match trim_chars cs with
  | [] => Null
  | cs' => Str (string_of_list_ascii cs')
  end.

Definition to_rows (text : string) : report :=
  map (fun r => map to_cell (split_on tab r))
      (List.filter (fun r => (1 <? length r)%nat) (split_on newline (chars text))).

(** [getDailySales]: the rows, [None] for [null] (no report yet), the
    empty array when there were no sales. *)
Definition getDailySales (resp : report_response) : outcome (option report) :=
  match resp with
  | ReportText text => Ok (Some (to_rows text))
  | ReportFailed code =>
      if existsb (num_is code) NO_REPORT_ERRORS then Ok None
      else if num_is code ERR_NO_SALES then Ok (Some [])
      else Error ReportServiceError
  end.

Definition getExchangeRates (resp : rates_response) : outcome (gmap string num) :=
  match resp with
  | RatesFailed => Error RatesRequestError
  | RatesBody None => Error RatesUnrecognized
  | RatesBody (Some rates) => Ok (<["USD" := int 1]> rates)
  end.

(** The [results] object; [prevDay] and [prevWeek] start as [null]. *)
Record SalesSnapshot := {
  day : apps_map;
  prevDay : option apps_map;
  prevWeek : option apps_map
}.

(** [getSalesForDate], given what the three report requests and the
    rate request answer.  The result is [None] for [null]. *)
Definition getSalesForDate (rDay rPrevDay rPrevWeek : report_response)
    (rRates : rates_response) : outcome (option SalesSnapshot) :=
  do report <- getDailySales rDay;
  match report with
  | None => Ok None
  | Some _ =>
      do rates <- getExchangeRates rRates;
      do d <- parseSalesReport report rates;
      if (length (keys d) =? 0)%nat then
        Ok (Some {| day := d; prevDay := None; prevWeek := None |})
      else
        do report1 <- getDailySales rPrevDay;
        do pd <- parseSalesReport report1 rates;
        do report7 <- getDailySales rPrevWeek;
        do pw <- parseSalesReport report7 rates;
        Ok (Some {| day := d; prevDay := Some pd; prevWeek := Some pw |})
  end.

End Aggregator.

(** ** The Slack formatter *)

Module Formatter.
Import JS Parser Aggregator.

Definition MAX_ATTACHMENTS : nat := 20.

Definition formatNumber (value : num) : string :=
  replace_thousands (toString value).

Definition formatPercent (value : num) : string :=
  let plus := if ge value (int 0) then "+" else EmptyString in
  let n := replace_thousands (toFixed (mul value (int 100)) 1) in
  plus +:+ n +:+ "%".

(** [prev ? (dayValue - prev) / Math.abs(prev) : 1] *)
Definition change (dayValue prev : num) : num :=
  if truthy prev then div (sub dayValue prev) (abs prev) else int 1.

Definition formatPercentsField (dayValue prevDayValue prevWeekValue : num) : string :=
  let dayPct := change dayValue prevDayValue in
  let weekPct := change dayValue prevWeekValue in
  formatPercent dayPct +:+ " day / " +:+ formatPercent weekPct +:+ " week".

Definition formatCurrency (value : num) : string :=
  let minus := if lt value (int 0) then "-" else EmptyString in
  let sig := if ge (abs value) (int 100) then 0%nat else 2%nat in
  let n := replace_thousands (toFixed (abs value) sig) in
  minus +:+ "$" +:+ n.

(** One entry of an attachment's [fields]; [f_title] is [None] where the
    object literal has no [title]. *)
Record field := {
  f_title : option string;
  f_value : string;
  f_short : bool
}.

Definition createFields
    (installs revenue prevDayInstalls prevDayRevenue prevWeekInstalls prevWeekRevenue : num)
    : list field :=
  [ {| f_title := Some "Downloads"; f_value := formatNumber installs; f_short := true |} ]
  ++ (if truthy revenue
      then [ {| f_title := Some "Revenue"; f_value := formatCurrency revenue; f_short := true |} ]
      else [])
  ++ [ {| f_title := None;
          f_value := formatPercentsField installs prevDayInstalls prevWeekInstalls;
          f_short := true |} ]
  ++ (if truthy revenue
      then [ {| f_title := None;
                f_value := formatPercentsField revenue prevDayRevenue prevWeekRevenue;
                f_short := true |} ]
      else []).

(** An attachment: the per-app ones carry [author_name] and
    [author_icon], the Totals one [pretext] and [title]. *)
Record attachment := {
  fallback : string;
  color : string;
  pretext : option string;
  a_title : option string;
  author_name : option value;
  author_icon : option value;
  fields : list field
}.

Inductive message :=
  | TextMessage (text : string)
  | AttachmentsMessage (attachments : list attachment).

(** The three running sums of [totalInstalls] and of [totalRevenue]. *)
Record periods := {
  p_day : num;
  p_prevDay : num;
  p_prevWeek : num
}.

Definition zero_periods : periods :=
  {| p_day := int 0; p_prevDay := int 0; p_prevWeek := int 0 |}.

(** [m[appID] || { installs: 0, revenue: 0 }], as the pair of figures *)
Definition figures_or_zero (m : apps_map) (appID : string) : num * num :=
  match get appID m with
  | Some app => (installs app, revenue app)
  | None => (int 0, int 0)
  end.

Definition color_of (isGood : bool) : string := if isGood then "good" else "danger".

(** [revenue ? revenue > prevRevenue : installs > prevInstalls] *)
Definition is_good (installs revenue prevInstalls prevRevenue : num) : bool :=
  if truthy revenue then gt revenue prevRevenue else gt installs prevInstalls.

Section WithCollation.

(** [a.localeCompare(b)]: negative, zero or positive.  The collation is
    the host's. *)
Variable localeCompare : string -> string -> Z.

(** The comparator given to [sort]: reading [.title] of a missing record,
    or [.localeCompare] of a title that is [null] or [undefined], throws. *)
Definition compare_titles (day : apps_map) (a b : string) : outcome Z :=
  match get a day, get b day with
  | Some x, Some y =>
      match title x with
      | Str s => Ok (localeCompare s (to_key (title y)))
      | _ => Error TypeError
      end
  | _, _ => Error TypeError
  end.

(** [Array.prototype.sort] with a comparator that may throw, as a stable
    insertion sort.  Which pairs an engine compares, and in what order,
    is its own business; with a comparator that is a total preorder and
    never throws every stable sort gives this result. *)
Fixpoint insert_sorted (cmp : string -> string -> outcome Z) (x : string)
    (l : list string) : outcome (list string) :=
  match l with
  | [] => Ok [x]
  | y :: l' =>
      do c <- cmp x y;
      if (c <=? 0)%Z then Ok (x :: y :: l')
      else do r <- insert_sorted cmp x l'; Ok (y :: r)
  end.

Fixpoint sort (cmp : string -> string -> outcome Z) (l : list string)
    : outcome (list string) :=
  match l with
  | [] => Ok []
  | [x] => Ok [x]
  | x :: l' => do s <- sort cmp l'; insert_sorted cmp x s
  end.

(** The state the [forEach] over the sorted ids updates. *)
Record loop_state := {
  totalInstalls : periods;
  totalRevenue : periods;
  attachments : list attachment
}.

Definition app_attachment (app : AppSalesRecord) (prevDayApp prevWeekApp : num * num)
    : attachment :=
  {| fallback := EmptyString;
     color := color_of (is_good (installs app) (revenue app) (fst prevDayApp) (snd prevDayApp));
     pretext := None;
     a_title := None;
     author_name := Some (title app);
     author_icon := Some (icon app);
     fields := createFields (installs app) (revenue app)
                 (fst prevDayApp) (snd prevDayApp) (fst prevWeekApp) (snd prevWeekApp) |}.

(** The body of the [forEach]. *)
Definition visit_app (sales : SalesSnapshot) (st : loop_state) (appID : string)
    : outcome loop_state :=
  match get appID (day sales), prevDay sales, prevWeek sales with
  | Some app, Some prevDay, Some prevWeek =>
      let prevDayApp := figures_or_zero prevDay appID in
      let prevWeekApp := figures_or_zero prevWeek appID in
      Ok {| totalInstalls :=
              {| p_day := add (p_day (totalInstalls st)) (installs app);
                 p_prevDay := add (p_prevDay (totalInstalls st)) (fst prevDayApp);
                 p_prevWeek := add (p_prevWeek (totalInstalls st)) (fst prevWeekApp) |};
            totalRevenue :=
              {| p_day := add (p_day (totalRevenue st)) (revenue app);
                 p_prevDay := add (p_prevDay (totalRevenue st)) (snd prevDayApp);
                 p_prevWeek := add (p_prevWeek (totalRevenue st)) (snd prevWeekApp) |};
            attachments := attachments st ++ [app_attachment app prevDayApp prevWeekApp] |}
  | _, _, _ => Error TypeError
  end.

Fixpoint for_each (sales : SalesSnapshot) (st : loop_state) (appIDs : list string)
    : outcome loop_state :=
  match appIDs with
  | [] => Ok st
  | appID :: rest => do st' <- visit_app sales st appID; for_each sales st' rest
  end.

Definition totals_attachment (text : string) (ti tr : periods) : attachment :=
  {| fallback := text;
     color := color_of (is_good (p_day ti) (p_day tr) (p_prevDay ti) (p_prevDay tr));
     pretext := Some text;
     a_title := Some "Totals";
     author_name := None;
     author_icon := None;
     fields := createFields (p_day ti) (p_day tr) (p_prevDay ti) (p_prevDay tr)
                 (p_prevWeek ti) (p_prevWeek tr) |}.

(** [buildSlackMessage(sales, date)]; [dateStr] is the date already
    formatted as [MMMM D, YYYY]. *)
Definition buildSlackMessage (sales : SalesSnapshot) (dateStr : string) : outcome message :=
  if (length (keys (day sales)) =? 0)%nat then
    Ok (TextMessage ("No app sales on " +:+ dateStr))
  else
    do appIDs <- sort (compare_titles (day sales)) (keys (day sales));
    do st <- for_each sales
               {| totalInstalls := zero_periods; totalRevenue := zero_periods;
                  attachments := [] |}
               appIDs;
    let shown :=
      if (MAX_ATTACHMENTS <? length (attachments st))%nat
      then take MAX_ATTACHMENTS (attachments st)
      else attachments st in
    let text := "Daily Analytics for " +:+ dateStr in
    Ok (AttachmentsMessage
          (totals_attachment text (totalInstalls st) (totalRevenue st) :: shown)).

End WithCollation.

(** A collation to run examples with: code-unit order. *)
Definition ordinalCompare (a b : string) : Z :=
  match String.compare a b with
  | Lt => (-1)%Z
  | Eq => 0%Z
  | Gt => 1%Z
  end.

End Formatter.

(** ** The specification's reading of the same operations

    Definitions that follow the wording of the design document, to be
    compared with the functions above. *)

Module Spec.
Import JS Parser Aggregator Formatter.



(** The cell of row [r] in the column the header calls [name]. *)
Definition column (header : row) (name : string) (r : row) : value :=
  cell r (indexOf header name).


(** Units and proceeds; a value that fails numeric parsing counts as 0. *)
Definition units (header r : row) : num :=
  or_else (Number (column header "Units" r)) (int 0).






(** A manual accumulation: the values added up in row order from 0. *)
Definition sum (l : list num) : num := fold_left add l (int 0).






(** The record a row creates when its app has none yet. *)
Definition fresh_record (header r : row) : AppSalesRecord :=
  {| title := column header "Title" r;
     country := column header "Country Code" r;
     icon := Null;
     installs := int 0;
     revenue := int 0 |}.




(** Thousands grouping of a run of digits: a comma before every digit,
    the first excepted, that starts a group of three counted from the
    right. *)
Fixpoint group_digits (first : bool) (ds : list ascii) : list ascii :=
  match ds with
  | [] => []
  | d :: ds' =>
      (if negb first && (length ds mod 3 =? 0)%nat then [","%char] else [])
      ++ d :: group_digits false ds'
  end.

Definition group3 (ds : list ascii) : list ascii := group_digits true ds.

(** The integer nearest to [a * 10^d], the larger one on a tie ([a >= 0]). *)
Definition round_to (a : Q) (d : nat) : N :=
  Z.to_N (Qfloor (a * pow10 d + (1 # 2))).

(** The digits of [n], with leading zeros up to [len] characters. *)
Definition zero_pad (len : nat) (n : N) : list ascii :=
  repeat "0"%char (len - length (digits n)) ++ digits n.

Definition text (cs : list ascii) : string := string_of_list_ascii cs.

Definition all_digits (cs : list ascii) : Prop := Forall (fun c => is_digit c = true) cs.

(** The sign in front of a currency amount, and of a percent change. *)
Definition minus_sign (q : Q) : string := if Qlt_le_dec q 0 then "-" else EmptyString.

(** The figures of [id] in a mapping, zero when it has none. *)
Definition installs_in (m : apps_map) (id : string) : num := fst (figures_or_zero m id).
Definition revenue_in (m : apps_map) (id : string) : num := snd (figures_or_zero m id).

(** Every record of the mapping has a string for a title. *)
Definition titled (m : apps_map) : Prop :=
  Forall (fun entry => exists s, title (snd entry) = Str s) m.

(** [att] is the per-app section of [id]. *)
Definition section_of (sales : SalesSnapshot) (pd pw : apps_map) (id : string)
    (att : attachment) : Prop :=
  exists app, get id (day sales) = Some app
    /\ att = app_attachment app (figures_or_zero pd id) (figures_or_zero pw id).

(** The sum of [f] over the ids, in list order. *)
Definition sum_over (f : string -> num) (ids : list string) : num :=
  sum (map f ids).

(** The totals of the three periods over the ids. *)
Definition totals_over (f : apps_map -> string -> num) (sales : SalesSnapshot)
    (pd pw : apps_map) (ids : list string) : periods :=
  {| p_day := sum_over (f (day sales)) ids;
     p_prevDay := sum_over (f pd) ids;
     p_prevWeek := sum_over (f pw) ids |}.



End Spec.

(** ** Sample inputs *)

Module Samples.
Import JS Parser Aggregator Formatter.

Definition header : row :=
  map Str ["Apple Identifier"; "Country Code"; "Currency of Proceeds"; "Title";
           "Units"; "Developer Proceeds"; "Product Type Identifier"].

Definition rates : gmap string num := {[ "USD" := int 1; "EUR" := fin (1 # 2) ]}.






(** A line of report text: the cells joined by tabs, then a newline. *)
Definition line (cells : list string) : string :=
  String.concat (String tab EmptyString) cells +:+ String newline EmptyString.

(** The text of a report with one download. *)
Definition text_one_sale : string :=
  line ["Apple Identifier"; "Title"; "Units"; "Developer Proceeds";
        "Currency of Proceeds"; "Product Type Identifier"; "Country Code"]
  +:+ line ["42"; "Foo"; "3"; "1.5"; "USD"; "1"; "US"].

Definition app (t : string) (i r : num) : AppSalesRecord :=
  {| title := Str t; country := Str "US"; icon := Null; installs := i; revenue := r |}.


(** [n] apps with keys a0, a1, ..., each with one install. *)
Fixpoint many_apps (n : nat) : apps_map :=
  match n with
  | O => []
  | S n' => many_apps n' ++ [("a" +:+ string_of_list_ascii (digits (N.of_nat n')),
                              app "App" (int 1) (int 0))]
  end.

Definition sales_many (n : nat) : SalesSnapshot :=
  {| day := many_apps n; prevDay := Some []; prevWeek := Some [] |}.

End Samples.

(** * Properties *)

(** ** Arithmetic of [JS.num] *)

Module NumFacts.
Import JS Parser Spec.











Lemma Qnegb_lt q : Qnegb q = true <-> (q < 0)%Q.
Proof. unfold Qnegb, Qlt. simpl. rewrite Z.ltb_lt. lia. Qed.

Lemma Qltb_lt p q : Qltb p q = true <-> (p < q)%Q.
Proof.
  unfold Qltb. rewrite Qlt_alt. destruct (p ?= q)%Q; split; congruence.
Qed.

Lemma Qnegb_abs q : Qnegb (Qabs q) = false.
Proof.
  destruct (Qnegb (Qabs q)) eqn:E; [ | reflexivity ].
  apply Qnegb_lt in E. pose proof (Qabs_nonneg q). exfalso.
  apply (Qlt_irrefl 0). eapply Qle_lt_trans; eassumption.
Qed.



End NumFacts.

(** ** The parser, row by row *)

Module ParserFacts.
Import JS Parser Spec NumFacts.



Lemma get_In k a m : get k m = Some a -> In (k, a) m.
Proof.
  induction m as [| [k' a'] m IH]; simpl; [discriminate | ].
  destruct (String.eqb_spec k k') as [-> | _].
  - intros [= ->]. left. reflexivity.
  - intros H. right. apply IH, H.
Qed.

Lemma In_get k m : In k (map fst m) -> exists a, get k m = Some a.
Proof.
  induction m as [| [k' a'] m IH]; simpl; [tauto | ].
  intros [-> | H].
  - rewrite String.eqb_refl. eexists. reflexivity.
  - destruct (String.eqb k k'); [eexists; reflexivity | apply IH, H].
Qed.






Section Rows.
Variable header : row.
Variable rates : gmap string num.







End Rows.


Lemma set_titled k a m :
  titled m -> (exists s, title a = Str s) -> titled (set k a m).
Proof.
  intros Hm Ha. induction Hm as [| [k' a'] m Hhd Hm IH]; simpl.
  - repeat constructor. exact Ha.
  - destruct (String.eqb k k'); constructor; assumption.
Qed.

(** When every data row has a title, so has every record. *)
Lemma parse_titled header data rates apps :
  Forall (fun r => exists s, column header "Title" r = Str s) data ->
  parseSalesReport (Some (header :: data)) rates = Ok apps ->
  titled apps.
Proof.
  intros Hrows Hparse. revert Hparse.
  assert (forall start, titled start ->
            titled (fold_left (parse_row (resolve_columns header) rates) data start)) as Hfold.
  { induction Hrows as [| r data [s Hs] _ IH]; intros start Hstart; simpl; [exact Hstart | ].
    apply IH. unfold parse_row. apply set_titled; [exact Hstart | ].
    assert (exists t, title (match get (to_key (cell r (idxAppID (resolve_columns header)))) start with
                             | Some app => app
                             | None => fresh_record header r
                             end) = Str t) as Htitle.
    { destruct (get _ start) as [app |] eqn:Hget.
      - apply get_In in Hget. unfold titled in Hstart.
        rewrite List.Forall_forall in Hstart. exact (Hstart _ Hget).
      - exists s. exact Hs. }
    unfold fresh_record, column in Htitle. simpl idxAppID in *.
    repeat case_match; exact Htitle. }
  intros Hparse. destruct data as [| r data]; simpl in Hparse; injection Hparse as <-.
  - constructor.
  - apply (Hfold []). constructor.
Qed.

End ParserFacts.

(** ** Digits and the thousands separator *)

Module TextFacts.
Import JS Spec.

Lemma uint_all_digits (d : Decimal.uint) :
  all_digits (chars (NilEmpty.string_of_uint d)).
Proof.
  unfold all_digits, chars.
  induction d; simpl; constructor; try reflexivity; assumption.
Qed.

Lemma digits_all_digits n : all_digits (digits n).
Proof. apply uint_all_digits. Qed.

Lemma repeat_zero_all_digits k : all_digits (repeat "0"%char k).
Proof. induction k; simpl; constructor; [reflexivity | assumption]. Qed.

Lemma zero_pad_all_digits len n : all_digits (zero_pad len n).
Proof.
  unfold zero_pad, all_digits. apply Forall_app. split.
  - apply repeat_zero_all_digits.
  - apply digits_all_digits.
Qed.

Lemma split_all_digits (ip fp m : list ascii) :
  ip ++ fp = m -> all_digits m -> all_digits ip /\ all_digits fp.
Proof. intros <- H. apply Forall_app in H. exact H. Qed.

Lemma digit_is_word c : is_digit c = true -> is_word c = true.
Proof. unfold is_word. intros ->. reflexivity. Qed.

Lemma digit_run_app ds rest :
  all_digits ds -> digit_run (ds ++ rest) = (length ds + digit_run rest)%nat.
Proof.
  induction 1 as [| c ds Hc _ IH]; simpl; [reflexivity | ].
  rewrite Hc, IH. reflexivity.
Qed.

(** On a run of digits followed by something that is no digit, the
    replacement inserts the commas of the thousands grouping; [first]
    says that the run starts at a word boundary. *)
Lemma insert_commas_run rest out :
  digit_run rest = 0%nat ->
  (forall p, insert_commas p rest = out) ->
  forall ds prev,
    all_digits ds ->
    insert_commas prev (ds ++ rest)
    = group_digits (negb (match prev with Some c => is_word c | None => false end)) ds ++ out.
Proof.
  intros Hrest Hout. induction ds as [| d ds IH]; intros prev Hds.
  - simpl. apply Hout.
  - inversion Hds as [| ? ? Hd Hds']; subst.
    change ((d :: ds) ++ rest) with (d :: (ds ++ rest)).
    cbn [insert_commas group_digits].
    rewrite (IH (Some d) Hds'), (digit_is_word d Hd). cbn [negb].
    rewrite <- app_assoc. f_equal.
    + unfold non_boundary, triples_ahead.
      change (digit_run (d :: ds ++ rest)) with (digit_run ((d :: ds) ++ rest)).
      rewrite (digit_run_app (d :: ds) rest Hds), Hrest, Nat.add_0_r.
      rewrite (digit_is_word d Hd). cbn [length].
      destruct (match prev with Some c => is_word c | None => false end); reflexivity.
Qed.

Lemma insert_commas_digits ds :
  all_digits ds -> insert_commas None ds = group3 ds.
Proof.
  intros Hds.
  pose proof (insert_commas_run [] [] eq_refl (fun _ => eq_refl) ds None Hds) as H.
  rewrite !app_nil_r in H. exact H.
Qed.

Lemma group_short first fp :
  (length fp <= 3)%nat -> group_digits true fp = fp /\ (length fp < 3 -> group_digits first fp = fp)%nat.
Proof.
  destruct fp as [| a [| b [| c [| d fp]]]]; simpl; intros H; try lia;
    split; try reflexivity; intros; try lia; destruct first; reflexivity.
Qed.

(** A fraction of at most three digits after the point is left alone. *)
Lemma insert_commas_fraction fp p :
  all_digits fp -> (length fp <= 3)%nat ->
  insert_commas p ("."%char :: fp) = "."%char :: fp.
Proof.
  intros Hfp Hlen. cbn [insert_commas].
  assert (triples_ahead ("."%char :: fp) = false) as -> by reflexivity.
  rewrite andb_false_r. cbv iota. rewrite app_nil_l. f_equal.
  pose proof (insert_commas_run [] [] eq_refl (fun _ => eq_refl) fp (Some "."%char) Hfp) as H.
  rewrite !app_nil_r in H. rewrite H.
  change (is_word ".") with false. cbn [negb]. apply (proj1 (group_short true fp Hlen)).
Qed.

Lemma insert_commas_fixed ip fp :
  all_digits ip -> all_digits fp -> (length fp <= 3)%nat ->
  insert_commas None (ip ++ "."%char :: fp) = group3 ip ++ "."%char :: fp.
Proof.
  intros Hip Hfp Hlen.
  apply (insert_commas_run ("."%char :: fp) ("."%char :: fp) eq_refl); [ | exact Hip ].
  intros p. apply insert_commas_fraction; assumption.
Qed.



Lemma replace_thousands_text cs :
  replace_thousands (text cs) = text (insert_commas None cs).
Proof.
  unfold replace_thousands, text, chars.
  rewrite list_ascii_of_string_of_list_ascii. reflexivity.
Qed.

End TextFacts.

(** ** [toFixed] and the three formatters *)

Module FormatFacts.
Import JS Formatter Spec NumFacts TextFacts.

Lemma below_limit q : (Qabs q < pow10 21)%Q -> Qle_bool (pow10 21) (Qabs q) = false.
Proof.
  intros H. destruct (Qle_bool (pow10 21) (Qabs q)) eqn:E; [ | reflexivity ].
  apply Qle_bool_iff in E. exfalso. apply (Qlt_irrefl (Qabs q)).
  eapply Qlt_le_trans; eassumption.
Qed.

Lemma minus_sign_spec q : (if Qltb q 0 then "-" else EmptyString) = minus_sign q.
Proof.
  unfold minus_sign. destruct (Qlt_le_dec q 0) as [H | H].
  - apply Qltb_lt in H. rewrite H. reflexivity.
  - destruct (Qltb q 0) eqn:E; [ | reflexivity ].
    apply Qltb_lt in E. exfalso. apply (Qlt_irrefl q). eapply Qlt_le_trans; eassumption.
Qed.



Lemma round_to_comp a b d : (a == b)%Q -> round_to a d = round_to b d.
Proof. intros H. unfold round_to. rewrite H. reflexivity. Qed.

(** Without a fraction: the digits of the nearest integer. *)
Lemma toFixed_0 q :
  (Qabs q < pow10 21)%Q ->
  toFixed (Fin q) 0 = text ((if Qnegb q then ["-"%char] else []) ++ digits (round_to (Qabs q) 0)).
Proof. intros H. unfold toFixed. rewrite (below_limit q H). reflexivity. Qed.

(** With [S d] decimals: the digits of the nearest integer to
    [|q| * 10^(S d)], zero-padded, with the point before the last
    [S d] of them. *)
Lemma toFixed_S q d :
  (Qabs q < pow10 21)%Q ->
  exists ip fp,
    ip ++ fp = zero_pad (S (S d)) (round_to (Qabs q) (S d))
    /\ length fp = S d
    /\ toFixed (Fin q) (S d)
       = text ((if Qnegb q then ["-"%char] else []) ++ ip ++ "."%char :: fp).
Proof.
  intros H. unfold toFixed. rewrite (below_limit q H).
  fold (round_to (Qabs q) (S d)).
  fold (zero_pad (S (S d)) (round_to (Qabs q) (S d))).
  set (m := zero_pad (S (S d)) (round_to (Qabs q) (S d))).
  exists (take (length m - S d) m), (drop (length m - S d) m).
  split; [apply take_drop | ]. split; [ | reflexivity ].
  rewrite length_drop.
  assert (S (S d) <= length m)%nat.
  { subst m. unfold zero_pad. rewrite length_app, repeat_length. lia. }
  lia.
Qed.

(** The shape of a formatted currency amount. *)
Lemma formatCurrency_large q :
  (Qabs q < pow10 21)%Q -> (100 <= Qabs q)%Q ->
  formatCurrency (Fin q)
  = minus_sign q +:+ "$" +:+ text (group3 (digits (round_to (Qabs q) 0))).
Proof.
  intros Hlim Hbig. unfold formatCurrency.
  change (lt (Fin q) (int 0)) with (Qltb q 0). rewrite minus_sign_spec.
  change (ge (abs (Fin q)) (int 100)) with (Qle_bool 100 (Qabs q)).
  rewrite (proj2 (Qle_bool_iff 100 (Qabs q)) Hbig).
  change (abs (Fin q)) with (Fin (Qabs q)).
  rewrite toFixed_0 by (rewrite Qabs_pos by apply Qabs_nonneg; exact Hlim).
  rewrite Qnegb_abs, app_nil_l, replace_thousands_text.
  rewrite insert_commas_digits by apply digits_all_digits.
  rewrite (round_to_comp (Qabs (Qabs q)) (Qabs q)); [reflexivity | ].
  apply Qabs_pos, Qabs_nonneg.
Qed.

Lemma formatCurrency_small q :
  (Qabs q < 100)%Q ->
  exists ip fp,
    ip ++ fp = zero_pad 3 (round_to (Qabs q) 2)
    /\ length fp = 2%nat
    /\ formatCurrency (Fin q) = minus_sign q +:+ "$" +:+ text (group3 ip ++ "."%char :: fp).
Proof.
  intros Hsmall.
  assert (Qabs (Qabs q) == Qabs q)%Q as Habs by (apply Qabs_pos, Qabs_nonneg).
  assert (Qabs (Qabs q) < pow10 21)%Q as Hlim.
  { rewrite Habs. eapply Qlt_trans; [exact Hsmall | reflexivity]. }
  destruct (toFixed_S (Qabs q) 1 Hlim) as (ip & fp & Hsplit & Hlen & Hfix).
  rewrite (round_to_comp _ _ 2 Habs) in Hsplit.
  exists ip, fp. split; [exact Hsplit | ]. split; [exact Hlen | ].
  unfold formatCurrency.
  change (lt (Fin q) (int 0)) with (Qltb q 0). rewrite minus_sign_spec.
  change (ge (abs (Fin q)) (int 100)) with (Qle_bool 100 (Qabs q)).
  assert (Qle_bool 100 (Qabs q) = false) as ->.
  { destruct (Qle_bool 100 (Qabs q)) eqn:E; [ | reflexivity ].
    apply Qle_bool_iff in E. exfalso. apply (Qlt_irrefl (Qabs q)).
    eapply Qlt_le_trans; eassumption. }
  change (abs (Fin q)) with (Fin (Qabs q)).
  rewrite Hfix, Qnegb_abs, app_nil_l, replace_thousands_text.
  destruct (split_all_digits ip fp _ Hsplit (zero_pad_all_digits _ _)) as [Hip Hfp].
  rewrite insert_commas_fixed by (try assumption; lia). reflexivity.
Qed.







End FormatFacts.

(** ** Keys, sorting and the loop over the apps *)

Module FormatterFacts.
Import JS Parser Aggregator Formatter Spec Samples NumFacts ParserFacts.

Lemma insert_index_perm n k l : insert_index n k l ≡ₚ (n, k) :: l.
Proof.
  induction l as [| [n' k'] l IH]; simpl; [reflexivity | ].
  destruct (n <=? n')%N; [reflexivity | ].
  rewrite IH. apply perm_swap.
Qed.

(** [Object.keys] lists each own key once. *)
Lemma keys_perm m : keys m ≡ₚ map fst m.
Proof.
  unfold keys. induction m as [| [k a] m IH]; simpl; [reflexivity | ].
  destruct (array_index k) as [n |].
  - rewrite insert_index_perm. simpl. rewrite IH. reflexivity.
  - rewrite <- Permutation_middle. rewrite IH. reflexivity.
Qed.

Lemma length_keys m : length (keys m) = length m.
Proof. rewrite (Permutation_length (keys_perm m)). apply length_map. Qed.

Lemma key_get k m : In k (keys m) -> exists a, get k m = Some a.
Proof.
  intros H. apply In_get. apply list_elem_of_In. rewrite <- keys_perm.
  apply list_elem_of_In. exact H.
Qed.




Lemma Forall2_right {A B} (R : A -> B -> Prop) (Q : B -> Prop) l k :
  (forall x y, R x y -> Q y) -> Forall2 R l k -> Forall Q k.
Proof. intros H. induction 1; constructor; eauto. Qed.

Lemma sort_cons cmp x l :
  sort cmp (x :: l) = do s <- sort cmp l; insert_sorted cmp x s.
Proof. destruct l; reflexivity. Qed.

Lemma insert_sorted_perm cmp x l r :
  insert_sorted cmp x l = Ok r -> r ≡ₚ x :: l.
Proof.
  revert r. induction l as [| y l IH]; intros r; simpl.
  - intros [= <-]. reflexivity.
  - destruct (cmp x y) as [c | e]; simpl; [ | discriminate ].
    destruct (c <=? 0)%Z.
    + intros [= <-]. reflexivity.
    + destruct (insert_sorted cmp x l) as [r' | e]; simpl; [ | discriminate ].
      intros [= <-]. rewrite (IH r' eq_refl). apply perm_swap.
Qed.

Lemma sort_perm cmp l s : sort cmp l = Ok s -> s ≡ₚ l.
Proof.
  revert s. induction l as [| x l IH]; intros s.
  - intros [= <-]. reflexivity.
  - rewrite sort_cons. destruct (sort cmp l) as [s' | e]; simpl; [ | discriminate ].
    intros H. rewrite (insert_sorted_perm _ _ _ _ H), (IH s' eq_refl). reflexivity.
Qed.

Lemma insert_sorted_ok cmp x l :
  (forall y, In y l -> exists c, cmp x y = Ok c) ->
  exists r, insert_sorted cmp x l = Ok r.
Proof.
  induction l as [| y l IH]; intros H; simpl; [eexists; reflexivity | ].
  destruct (H y (or_introl eq_refl)) as [c ->]. simpl.
  destruct (c <=? 0)%Z; [eexists; reflexivity | ].
  destruct IH as [r ->]; [ | eexists; reflexivity ].
  intros z Hz. apply H. right. exact Hz.
Qed.

(** A comparator that never throws on the elements sorts them. *)
Lemma sort_ok cmp l :
  (forall x y, In x l -> In y l -> exists c, cmp x y = Ok c) ->
  exists s, sort cmp l = Ok s.
Proof.
  induction l as [| x l IH]; intros H; [eexists; reflexivity | ].
  rewrite sort_cons.
  destruct IH as [s Hs].
  { intros a b Ha Hb. apply H; right; assumption. }
  rewrite Hs. simpl. apply insert_sorted_ok.
  intros y Hy. apply H; [left; reflexivity | right ].
  apply list_elem_of_In. rewrite <- (sort_perm _ _ _ Hs). apply list_elem_of_In. exact Hy.
Qed.

Lemma for_each_spec sales pd pw ids :
  prevDay sales = Some pd -> prevWeek sales = Some pw ->
  (forall id, In id ids -> exists a, get id (day sales) = Some a) ->
  forall st, exists atts,
    Forall2 (section_of sales pd pw) ids atts
    /\ for_each sales st ids
       = Ok {| totalInstalls :=
                 {| p_day := fold_left add (map (installs_in (day sales)) ids) (p_day (totalInstalls st));
                    p_prevDay := fold_left add (map (installs_in pd) ids) (p_prevDay (totalInstalls st));
                    p_prevWeek := fold_left add (map (installs_in pw) ids) (p_prevWeek (totalInstalls st)) |};
               totalRevenue :=
                 {| p_day := fold_left add (map (revenue_in (day sales)) ids) (p_day (totalRevenue st));
                    p_prevDay := fold_left add (map (revenue_in pd) ids) (p_prevDay (totalRevenue st));
                    p_prevWeek := fold_left add (map (revenue_in pw) ids) (p_prevWeek (totalRevenue st)) |};
               attachments := attachments st ++ atts |}.
Proof.
  intros Hpd Hpw. induction ids as [| id ids IH]; intros Hget st.
  - exists []. split; [constructor | ]. simpl. rewrite app_nil_r.
    destruct st as [[] [] ?]; reflexivity.
  - destruct (Hget id (or_introl eq_refl)) as [rec Happ].
    cbn [for_each]. unfold visit_app. rewrite Happ, Hpd, Hpw. cbn [obind].
    match goal with |- context [for_each sales ?s ids] => set (st1 := s) end.
    destruct (IH (fun i Hi => Hget i (or_intror Hi)) st1) as (atts & Hatts & Hrun).
    exists (app_attachment rec (figures_or_zero pd id) (figures_or_zero pw id) :: atts).
    split.
    + constructor; [ | exact Hatts ]. exists rec. split; [exact Happ | reflexivity].
    + rewrite Hrun. subst st1. cbn [totalInstalls totalRevenue attachments p_day p_prevDay p_prevWeek map fold_left].
      rewrite <- app_assoc. cbn [List.app].
      assert (installs_in (day sales) id = installs rec) as ->
        by (unfold installs_in, figures_or_zero; rewrite Happ; reflexivity).
      assert (revenue_in (day sales) id = revenue rec) as ->
        by (unfold revenue_in, figures_or_zero; rewrite Happ; reflexivity).
      reflexivity.
Qed.

Section Collation.
Variable localeCompare : string -> string -> Z.

Lemma compare_titles_ok day a b :
  titled day -> In a (keys day) -> In b (keys day) ->
  exists c, compare_titles localeCompare day a b = Ok c.
Proof.
  intros Ht Ha Hb. unfold compare_titles.
  destruct (key_get _ _ Ha) as [x Hx], (key_get _ _ Hb) as [y Hy].
  rewrite Hx, Hy.
  apply get_In in Hx. unfold titled in Ht. rewrite List.Forall_forall in Ht.
  destruct (Ht _ Hx) as [s Hs]. simpl in Hs. rewrite Hs. eexists. reflexivity.
Qed.

(** What [buildSlackMessage] returns for a snapshot with sales. *)
Lemma buildSlackMessage_spec sales pd pw dateStr :
  day sales <> [] -> titled (day sales) ->
  prevDay sales = Some pd -> prevWeek sales = Some pw ->
  exists appIDs atts,
    sort (compare_titles localeCompare (day sales)) (keys (day sales)) = Ok appIDs
    /\ Permutation appIDs (keys (day sales))
    /\ Forall2 (section_of sales pd pw) appIDs atts
    /\ buildSlackMessage localeCompare sales dateStr
       = Ok (AttachmentsMessage
               (totals_attachment ("Daily Analytics for " +:+ dateStr)
                  (totals_over installs_in sales pd pw appIDs)
                  (totals_over revenue_in sales pd pw appIDs)
                :: take MAX_ATTACHMENTS atts)).
Proof.
  intros Hday Ht Hpd Hpw. unfold buildSlackMessage.
  assert ((length (keys (day sales)) =? 0)%nat = false) as ->.
  { rewrite length_keys. destruct (day sales); [contradiction | reflexivity]. }
  destruct (sort_ok (compare_titles localeCompare (day sales)) (keys (day sales)))
    as [appIDs Hsort].
  { intros a b Ha Hb. apply compare_titles_ok; assumption. }
  pose proof (sort_perm _ _ _ Hsort) as Hperm.
  rewrite Hsort. cbn [obind].
  destruct (for_each_spec sales pd pw appIDs Hpd Hpw) with
    (st := {| totalInstalls := zero_periods; totalRevenue := zero_periods; attachments := [] |})
    as (atts & Hatts & Hrun).
  { intros id Hid. apply key_get. apply list_elem_of_In. rewrite <- Hperm.
    apply list_elem_of_In. exact Hid. }
  exists appIDs, atts. split; [reflexivity | ]. split; [exact Hperm | ].
  split; [exact Hatts | ].
  rewrite Hrun. cbn [obind attachments totalInstalls totalRevenue List.app].
  f_equal. f_equal. f_equal.
  destruct (MAX_ATTACHMENTS <? length atts)%nat eqn:E; [reflexivity | ].
  apply Nat.ltb_ge in E. symmetry. apply take_ge. exact E.
Qed.

End Collation.

End FormatterFacts.

(** ** The aggregator and a report that is not there *)

Module AggregatorFacts.
Import JS Parser Aggregator FormatterFacts.

(** A "no sales" answer is parsed as the empty mapping. *)
Lemma no_sales_is_empty_mapping rates :
  (do report <- getDailySales (ReportFailed (int ERR_NO_SALES));
   parseSalesReport report rates) = Ok [].
Proof. reflexivity. Qed.

(** Once the current day has sales, a comparison request answered with
    one of the "no report" codes ends the aggregation in a [TypeError]:
    the [null] that [getDailySales] returns reaches [parseSalesReport]. *)
Lemma null_report_is_dereferenced text rates code rPrevWeek d :
  parseSalesReport (Some (to_rows text)) (<["USD" := int 1]> rates) = Ok d ->
  d <> [] ->
  existsb (num_is code) NO_REPORT_ERRORS = true ->
  getSalesForDate (ReportText text) (ReportFailed code) rPrevWeek (RatesBody (Some rates))
  = Error TypeError.
Proof.
  intros Hd Hne Hcode. unfold getSalesForDate.
  cbn [getDailySales obind getExchangeRates]. rewrite Hd. cbn [obind].
  assert ((length (keys d) =? 0)%nat = false) as ->.
  { rewrite length_keys. destruct d; [contradiction | reflexivity]. }
  rewrite Hcode. reflexivity.
Qed.

(** A snapshot with sales comes with both comparison mappings. *)
Lemma aggregated_snapshot_is_complete rDay rPrevDay rPrevWeek rRates s :
  getSalesForDate rDay rPrevDay rPrevWeek rRates = Ok (Some s) ->
  day s <> [] ->
  exists pd pw, prevDay s = Some pd /\ prevWeek s = Some pw.
Proof.
  unfold getSalesForDate. intros H Hday.
  destruct (getDailySales rDay) as [[report |] | e]; cbn [obind] in H; try discriminate.
  destruct (getExchangeRates rRates) as [rates | e]; cbn [obind] in H; try discriminate.
  destruct (parseSalesReport (Some report) rates) as [d | e]; cbn [obind] in H; try discriminate.
  destruct (length (keys d) =? 0)%nat eqn:Hlen.
  - injection H as <-. simpl in Hday. exfalso.
    apply Nat.eqb_eq in Hlen. rewrite length_keys in Hlen.
    destruct d; [contradiction | discriminate].
  - destruct (getDailySales rPrevDay) as [r1 | e]; cbn [obind] in H; try discriminate.
    destruct (parseSalesReport r1 rates) as [pd | e]; cbn [obind] in H; try discriminate.
    destruct (getDailySales rPrevWeek) as [r7 | e]; cbn [obind] in H; try discriminate.
    destruct (parseSalesReport r7 rates) as [pw | e]; cbn [obind] in H; try discriminate.
    injection H as <-. exists pd, pw. split; reflexivity.
Qed.

End AggregatorFacts.

(** * The claims *)

Import JS Parser Aggregator Formatter Spec Samples.
Import NumFacts ParserFacts TextFacts FormatFacts FormatterFacts.



(** C2.  With the current day's report available and not empty, a
    prior-day or prior-week request that fails with a "no report" code
    (210, 211, 212) makes [getSalesForDate] end in a [TypeError], since
    [parseSalesReport] reads [.length] of [null]; a "no sales" code (213)
    on both gives the snapshot with two empty mappings. *)
Lemma comparison_report_not_published_throws :
  getSalesForDate (ReportText text_one_sale) (ReportFailed (int 210))
    (ReportText text_one_sale) (RatesBody (Some ∅)) = Error TypeError
  /\ getSalesForDate (ReportText text_one_sale) (ReportText text_one_sale)
       (ReportFailed (int 211)) (RatesBody (Some ∅)) = Error TypeError
  /\ exists d, getSalesForDate (ReportText text_one_sale) (ReportFailed (int 213))
                 (ReportFailed (int 213)) (RatesBody (Some ∅))
               = Ok (Some {| day := d; prevDay := Some []; prevWeek := Some [] |})
               /\ d <> [].
Proof.
  split; [vm_compute; reflexivity | ]. split; [vm_compute; reflexivity | ].
  eexists. split; [vm_compute; reflexivity | discriminate].
Qed.




Section FormatterClaims.
Variable localeCompare : string -> string -> Z.


(** C7.  For a snapshot with sales whose titles are strings, the message
    is the Totals section followed by the per-app sections of at most 20
    apps and nothing else; no error is raised.  With 25 apps in [day]
    there are 21 sections. *)
Theorem at_most_twenty_app_sections
    (sales : SalesSnapshot) (pd pw : apps_map) (dateStr : string) :
  day sales <> [] -> titled (day sales) ->
  prevDay sales = Some pd -> prevWeek sales = Some pw ->
  exists totals shown,
    buildSlackMessage localeCompare sales dateStr
    = Ok (AttachmentsMessage (totals :: shown))
    /\ a_title totals = Some "Totals"
    /\ Forall (fun att => a_title att = None
                          /\ exists id app, get id (day sales) = Some app
                                            /\ author_name att = Some (title app)) shown
    /\ length shown = Nat.min 20 (length (day sales))
    /\ (length (day sales) = 25%nat -> length (totals :: shown) = 21%nat).
Proof.
  intros Hday Ht Hpd Hpw.
  destruct (buildSlackMessage_spec localeCompare sales pd pw dateStr Hday Ht Hpd Hpw)
    as (appIDs & atts & _ & Hperm & Hatts & Hmsg).
  eexists. exists (take MAX_ATTACHMENTS atts).
  split; [exact Hmsg | ]. split; [reflexivity | ].
  assert (length (take MAX_ATTACHMENTS atts) = Nat.min 20 (length (day sales))) as Hlen.
  { rewrite length_take. rewrite <- (Forall2_length _ _ _ Hatts).
    rewrite (Permutation_length Hperm), length_keys. reflexivity. }
  split; [ | split; [exact Hlen | ] ].
  - apply Forall_take.
    apply (Forall2_right (section_of sales pd pw) _ appIDs atts); [ | exact Hatts ].
    intros id att (app & Hget & ->).
    split; [reflexivity | ]. exists id, app. split; [exact Hget | reflexivity].
  - intros H25. cbn [length]. rewrite Hlen, H25. reflexivity.
Qed.


End FormatterClaims.




(** C6 does not hold as stated: 1234.5 is formatted as $1,235, since
    [toFixed] rounds to the nearest integer and takes the larger one on a
    tie. *)
Lemma currency_1234_5_rounds_up :
  formatCurrency (string_to_number "1234.5") = "$1,235"
  /\ formatCurrency (string_to_number "1234.5") <> "$1,234".
Proof. split; [vm_compute; reflexivity | vm_compute; discriminate]. Qed.

(** C6, amended.  For a finite value below 10^21 in magnitude the currency
    formatter writes a minus sign only if the value is negative, then the
    dollar sign, then the magnitude rounded to the nearest (the larger on
    a tie): without decimals and grouped in thousands from 100 up, with
    two decimals below.  1234.5 gives $1,235, 42.5 gives $42.50 and -5.2
    gives -$5.20. *)
Theorem currency_format (q : Q) :
  (Qabs q < pow10 21)%Q ->
  ((100 <= Qabs q)%Q ->
   formatCurrency (Fin q)
   = minus_sign q +:+ "$" +:+ text (group3 (digits (round_to (Qabs q) 0))))
  /\ ((Qabs q < 100)%Q ->
      exists ip fp,
        ip ++ fp = zero_pad 3 (round_to (Qabs q) 2)
        /\ length fp = 2%nat
        /\ formatCurrency (Fin q)
           = minus_sign q +:+ "$" +:+ text (group3 ip ++ "."%char :: fp))
  /\ formatCurrency (string_to_number "1234.5") = "$1,235"
  /\ formatCurrency (string_to_number "42.5") = "$42.50"
  /\ formatCurrency (string_to_number "-5.2") = "-$5.20".
Proof.
  intros Hlim. split; [ | split ].
  - intros Hbig. apply formatCurrency_large; assumption.
  - apply formatCurrency_small.
  - repeat split; vm_compute; reflexivity.
Qed.

(** C6, amended, at -617283.5. *)
Lemma currency_format_witness :
  (Qabs (-(1234567 # 2)) < pow10 21)%Q
  /\ formatCurrency (Fin (-(1234567 # 2))) = "-$617,284".
Proof.
  assert (Qabs (-(1234567 # 2)) < pow10 21)%Q as H by reflexivity.
  split; [exact H | ].
  rewrite (proj1 (currency_format (-(1234567 # 2)) H)); [ | vm_compute; discriminate ].
  vm_compute. reflexivity.
Defined.

(** C7 at a snapshot of 25 apps. *)
Lemma at_most_twenty_app_sections_witness :
  day (sales_many 25) <> [] /\ titled (day (sales_many 25))
  /\ exists totals shown,
       buildSlackMessage ordinalCompare (sales_many 25) "June 1, 2017"
       = Ok (AttachmentsMessage (totals :: shown))
       /\ length (totals :: shown) = 21%nat.
Proof.
  assert (day (sales_many 25) <> []) as H by (vm_compute; discriminate).
  assert (titled (day (sales_many 25))) as Ht by (vm_compute; repeat econstructor).
  split; [exact H | ]. split; [exact Ht | ].
  destruct (at_most_twenty_app_sections ordinalCompare (sales_many 25) [] []
              "June 1, 2017" H Ht eq_refl eq_refl)
    as (totals & shown & Hmsg & _ & _ & _ & H25).
  exists totals, shown. split; [exact Hmsg | ]. apply H25. reflexivity.
Defined.







(** With 21 apps of one install each the Totals section reports 21
    downloads above twenty sections of 1. *)
Example totals_exceed_shown_sections :
  exists totals shown,
    buildSlackMessage ordinalCompare (sales_many 21) "June 1, 2017"
    = Ok (AttachmentsMessage (totals :: shown))
    /\ map f_value (take 1 (fields totals)) = ["21"]
    /\ length shown = 20%nat
    /\ Forall (fun att => map f_value (take 1 (fields att)) = ["1"]) shown.
Proof.
  eexists. eexists. split; [vm_compute; reflexivity | ].
  split; [reflexivity | ]. split; [reflexivity | ].
  repeat constructor.
Qed.
